(** * agent_tourist: the wellness-check call handlers of [agent_tourist.py]

    A shallow embedding of the four request handlers of the FastAPI
    application ([llm_decide_action], [trigger_event], [twilio_voice],
    [twilio_gather]) over the module-level dictionary [CALL_STATE], followed
    by the properties of the call-session workflow that hold, or fail, on
    them.

    Python values are modelled by [pyval]; the dictionary [CALL_STATE] by a
    finite map from keys ([None] or a string) to metadata dictionaries; the
    outcome of every call into a collaborator (the Groq endpoint, [json.loads],
    [uuid.uuid4], the Twilio client) is an input of the handler that makes
    it, recorded in a [world]. Handlers run in a small state-and-exception
    monad: a handler that raises keeps the writes it made before raising,
    as the Python dictionary does. *)

From stdpp Require Import base option list strings gmap fin_maps.
From Stdlib Require Import ZArith Ascii String.

#[local] Open Scope string_scope.
#[local] Set Warnings "-register-all".

(** ** Python values *)

(** The values that [json.loads] produces and that the handlers store:
    [None], booleans, integers, strings, lists and string-keyed
    dictionaries. (A JSON number with a fraction becomes a Python float;
    no handler inspects numbers, and the model leaves floats out.) *)
Inductive pyval : Type :=
| PNone
| PBool (b : bool)
| PInt (z : Z)
| PStr (s : string)
| PList (l : list pyval)
| PDict (d : gmap string pyval).

(** An optional string as returned by [form.get] / [query_params.get]. *)
Definition of_opt_str (o : option string) : pyval :=
  match o with
  | Some s => PStr s
  | None => PNone
  end.

(** [str(x)] inside an f-string, for an optional string. *)
Definition py_str (o : option string) : string :=
  match o with
  | Some s => s
  | None => "None"
  end.

(** ** Strings: [str.lower] and the [in] operator *)

Definition lower_char (c : ascii) : ascii :=
  let n := N_of_ascii c in
  if ((65 <=? n) && (n <=? 90))%N then ascii_of_N (n + 32) else c.

Fixpoint lower (s : string) : string :=
  match s with
  | EmptyString => EmptyString
  | String c r => String (lower_char c) (lower r)
  end.

Fixpoint starts_with (sub s : string) : bool :=
  match sub, s with
  | EmptyString, _ => true
  | String a sub', String b s' => if Ascii.eqb a b then starts_with sub' s' else false
  | String _ _, EmptyString => false
  end.

(** [sub in s] *)
Fixpoint contains (sub s : string) : bool :=
  starts_with sub s ||
  match s with
  | EmptyString => false
  | String _ r => contains sub r
  end.

(** Truthiness of an optional string ([None] and [""] are falsy). *)
Definition truthy (o : option string) : bool :=
  match o with
  | Some (String _ _) => true
  | _ => false
  end.

(** ** Exceptions and results *)

Inductive exn : Type :=
| TimeoutException
| ConnectError
| HTTPStatusError
| KeyError
| TypeError
| JSONDecodeError
| AttributeError
| TwilioRestException.

Inductive result (A : Type) : Type :=
| Ok (a : A)
| Raise (e : exn).
Arguments Ok {A} a.
Arguments Raise {A} e.

(** [d.get(k, dflt)]: an attribute error on anything but a dictionary. *)
Definition py_get (d : pyval) (k : string) (dflt : pyval) : result pyval :=
  match d with
  | PDict m => Ok (default dflt (m !! k))
  | _ => Raise AttributeError
  end.

(** [v.lower()]: an attribute error on anything but a string. *)
Definition py_lower (v : pyval) : result string :=
  match v with
  | PStr s => Ok (lower s)
  | _ => Raise AttributeError
  end.

(** ** The trigger event and the collaborators *)

Record TriggerEvent : Type := {
  user_id : Z;
  user_name : string;
  phone : string;
  event_type : string;
  event_payload : gmap string pyval
}.

(** What the Groq request of [llm_decide_action] did: either one of
    [client.post], [raise_for_status] and the indexing of [r.json()] raised,
    or the completion text was obtained and [json.loads] was run on it,
    returning a value or raising. *)
Inductive oracle_run : Type :=
| PostRaises (e : exn)
| Completed (parsed : result pyval).

(** The outcomes of the collaborator calls made while one trigger event is
    handled. *)
Record world : Type := {
  oracle : oracle_run;
  uuid4 : string;
  calls_create : result string;
  messages_create : result unit
}.

(** Requests sent to the carrier through the Twilio client. *)
Inductive carrier_request : Type :=
| PlaceCall (to : string) (from_ : option string) (url : string)
| SendMessage (body : pyval) (to : string) (from_ : option string).

(** ** TwiML replies *)

(** The verbs of a voice response as the handlers build them: [Say v] is
    made from the argument [v] of [say], whatever value it is. *)

Inductive twiml : Type :=
| Say (message : pyval)
| Gather (input : string) (num_digits timeout : Z) (action method : string)
    (nested : list twiml).

Record Response : Type := {
  content : list twiml;
  media_type : string
}.

(** Truthiness of a value: [None], [False], 0, the empty string, list and
    dictionary are falsy. *)
Definition py_truthy (v : pyval) : bool :=
  match v with
  | PNone => false
  | PBool b => b
  | PInt z => negb (z =? 0)%Z
  | PStr s => negb (String.eqb s "")
  | PList l => match l with [] => false | _ :: _ => true end
  | PDict d => negb (Nat.eqb (size d) 0)
  end.

(** What the serialiser accepts: a [Say] keeps its message as text only
    when the message is truthy, and text that is not a string cannot be
    written. *)
Fixpoint serializable (t : twiml) : bool :=
  match t with
  | Say (PStr _) => true
  | Say v => negb (py_truthy v)
  | Gather _ _ _ _ _ nested => forallb serializable nested
  end.

(** [Response(content=str(vr), ...)]: [str(vr)] raises a type error on a
    verb it cannot write. *)
Definition str_vr (r : Response) : result Response :=
  if forallb serializable (content r) then Ok r else Raise TypeError.

(** ** Process state and the handler monad *)

Record state : Type := {
  CALL_STATE : gmap (option string) (gmap string pyval);
  outbound : list carrier_request
}.

Definition init : state := {| CALL_STATE := ∅; outbound := [] |}.

Definition M (A : Type) : Type := state -> result A * state.

Definition ret {A} (a : A) : M A := fun st => (Ok a, st).

Definition bind {A B} (m : M A) (k : A -> M B) : M B :=
  fun st =>
    match m st with
    | (Ok a, st') => k a st'
    | (Raise e, st') => (Raise e, st')
    end.

Notation "'do' x <- m ; k" := (bind m (fun x => k))
  (at level 10, x name, m at level 100, k at level 200).

Definition lift {A} (r : result A) : M A := fun st => (r, st).

Definition get_store : M (gmap (option string) (gmap string pyval)) :=
  fun st => (Ok (CALL_STATE st), st).

Definition put_store (m : gmap (option string) (gmap string pyval)) : M unit :=
  fun st => (Ok tt, {| CALL_STATE := m; outbound := outbound st |}).

(** A call of the Twilio client: the request is logged, then the client
    returns or raises. *)
Definition send {A} (rq : carrier_request) (outcome : result A) : M A :=
  fun st => (outcome, {| CALL_STATE := CALL_STATE st; outbound := outbound st ++ [rq] |}).

(** [CALL_STATE[k] = v] *)
Definition store_set (k : option string) (v : gmap string pyval) : M unit :=
  do m <- get_store; put_store (<[k := v]> m).

(** [CALL_STATE.pop(k)] *)
Definition store_pop (k : option string) : M (gmap string pyval) :=
  do m <- get_store;
  match m !! k with
  | Some v => do _ <- put_store (delete k m); ret v
  | None => lift (Raise KeyError)
  end.

(** [CALL_STATE[k][field] = v] *)
Definition store_set_field (k : option string) (field : string) (v : pyval) : M unit :=
  do m <- get_store;
  match m !! k with
  | Some rec => put_store (<[k := <[field := v]> rec]> m)
  | None => lift (Raise KeyError)
  end.

(** [CALL_STATE.setdefault(k, {})[field] = v] *)
Definition store_setdefault_field (k : option string) (field : string) (v : pyval) : M unit :=
  do m <- get_store;
  put_store (<[k := <[field := v]> (default ∅ (m !! k))]> m).

(** ** The handlers *)

Section Handlers.

(** Deployment configuration read from the environment at import time. *)
Variable BASE_URL : string.
Variable TWILIO_FROM : option string.

(** The decision used when the completion text is not JSON. *)
Definition fallback_message : string :=
  "Hello, this is Tourist Safety. We detected unusual activity. Are you safe? Press 1 for Yes, 2 for Help.".

Definition fallback_decision : pyval :=
  PDict (<["action" := PStr "call"]>
        (<["message" := PStr fallback_message]>
        (<["escalation" := PBool true]>
        (<["max_attempts" := PInt 2]> ∅)))).

(** [llm_decide_action]: the prompt built from the event is posted to the
    endpoint, with [o] as the outcome. The request is made outside the
    [try]; only [json.loads] is guarded, and whatever it returns is the
    decision. *)
Definition llm_decide_action (event : TriggerEvent) (o : oracle_run) : result pyval :=
  match o with
  | PostRaises e => Raise e
  | Completed parsed =>
      match parsed with
      | Ok decision => Ok decision
      | Raise _ => Ok fallback_decision
      end
  end.

(** [decision.get("action","").lower()] *)
Definition decision_action (decision : pyval) : result string :=
  match py_get decision "action" (PStr "") with
  | Ok a => py_lower a
  | Raise e => Raise e
  end.

(** The record written to [CALL_STATE] for a new call. *)
Definition new_record (event : TriggerEvent) (decision message : pyval) : gmap string pyval :=
  <["user_id" := PInt (user_id event)]>
  (<["phone" := PStr (phone event)]>
  (<["message" := message]>
  (<["decision" := decision]>
  (<["attempts" := PInt 0]> ∅)))).

Definition calling_reply (sid : string) : pyval :=
  PDict (<["status" := PStr "calling"]> (<["twilio_sid" := PStr sid]> ∅)).

Definition notified_reply : pyval :=
  PDict (<["status" := PStr "notified"]> ∅).

Definition ignored_reply (decision : pyval) : pyval :=
  PDict (<["status" := PStr "ignored"]> (<["decision" := decision]> ∅)).

(** [trigger_event] *)
Definition trigger_event (event : TriggerEvent) (w : world) : M pyval :=
  do decision <- lift (llm_decide_action event (oracle w));
  do action <- lift (decision_action decision);
  if String.eqb action "call" then
    let call_sid := uuid4 w in
    do message <- lift (py_get decision "message" PNone);
    do _ <- store_set (Some call_sid) (new_record event decision message);
    do sid <- send (PlaceCall (phone event) TWILIO_FROM (BASE_URL ++ "/twilio/voice"))
                   (calls_create w);
    do rec <- store_pop (Some call_sid);
    do _ <- store_set (Some sid) rec;
    do _ <- store_set_field (Some sid) "twilio_sid" (PStr sid);
    ret (calling_reply sid)
  else if String.eqb action "notify" then
    do message <- lift (py_get decision "message" PNone);
    do _ <- send (SendMessage message (phone event) TWILIO_FROM) (messages_create w);
    ret notified_reply
  else
    ret (ignored_reply decision).

Definition default_prompt : string :=
  "We noticed unusual activity. Are you safe? Press 1 for Yes, 2 for Help.".

Definition no_input_notice : string :=
  "We did not receive input. We will try again.".

Definition voice_reply (call_sid : option string) (message : pyval) : Response :=
  {| content :=
       [ Gather "dtmf speech" 1 6
           (BASE_URL ++ "/twilio/gather?call_sid=" ++ py_str call_sid) "POST"
           [ Say message ];
         Say (PStr no_input_notice) ];
     media_type := "application/xml" |}.

(** [twilio_voice]: the form of the carrier's request is its argument. The
    stored message goes into the prompt as it is; the reply is serialised
    last, and that raises when the message is truthy and not a string. *)
Definition twilio_voice (form : gmap string string) : M Response :=
  let call_sid := form !! "CallSid" in
  do store <- get_store;
  let meta := default ∅ (store !! call_sid) in
  let message := default (PStr default_prompt) (meta !! "message") in
  lift (str_vr (voice_reply call_sid message)).

Definition safe_notice : string :=
  "Glad you are safe. We have noted this. Goodbye.".

Definition alert_notice : string :=
  "We have alerted your emergency contact and authorities. Help is on the way.".

Definition say_reply (text : string) : Response :=
  {| content := [ Say (PStr text) ]; media_type := "application/xml" |}.

(** The dictionary saved under ['response']. *)
Definition captured (form : gmap string string) : pyval :=
  PDict (<["digits" := of_opt_str (form !! "Digits")]>
        (<["speech" := of_opt_str (form !! "SpeechResult")]>
        (<["raw" := PDict (PStr <$> form)]> ∅))).

(** The condition of the [if]:
    [digits == "1" or (speech_result and "safe" in speech_result.lower())] *)
Definition said_safe (digits speech_result : option string) : bool :=
  match digits with
  | Some d => String.eqb d "1"
  | None => false
  end
  || (truthy speech_result &&
      match speech_result with
      | Some sp => contains "safe" (lower sp)
      | None => false
      end).

(** [twilio_gather]: the form (the dictionary of its string fields) and
    the [call_sid] query parameter of the carrier's request are its
    arguments. *)
Definition twilio_gather (form : gmap string string) (query_call_sid : option string)
  : M Response :=
  let digits := form !! "Digits" in
  let speech_result := form !! "SpeechResult" in
  let call_sid := query_call_sid in
  do _ <- store_setdefault_field call_sid "response" (captured form);
  if said_safe digits speech_result then
    ret (say_reply safe_notice)
  else
    ret (say_reply alert_notice).

(** ** Runs of the server *)

Inductive request : Type :=
| TriggerReq (event : TriggerEvent) (w : world)
| VoiceReq (form : gmap string string)
| GatherReq (form : gmap string string) (query_call_sid : option string).

(** The state a request leaves behind, whether its handler returned or
    raised. *)
Definition handle (st : state) (rq : request) : state :=
  match rq with
  | TriggerReq event w => snd (trigger_event event w st)
  | VoiceReq form => snd (twilio_voice form st)
  | GatherReq form sid => snd (twilio_gather form sid st)
  end.

Definition run_all (rqs : list request) (st : state) : state :=
  fold_left handle rqs st.

(** ** Reading a session off the state *)

(** The stored ['attempts'] of a session. *)
Definition attempts_of (st : state) (sid : option string) : option pyval :=
  CALL_STATE st !! sid ≫= fun rec => rec !! "attempts".

(** The ['max_attempts'] of the decision stored with a session. *)
Definition max_attempts_of (st : state) (sid : option string) : option pyval :=
  CALL_STATE st !! sid ≫= fun rec =>
  rec !! "decision" ≫= fun d =>
  match d with
  | PDict m => m !! "max_attempts"
  | _ => None
  end.

(** The outcomes the workflow names for a response-collection callback. *)
Inductive disposition : Type :=
| RESOLVED_SAFE
| RETRYING
| ESCALATING.

(** The outcome a reply of [twilio_gather] announces to the callee: the
    handler has two replies, and none for a retry. *)
Definition reply_disposition (r : result Response) : option disposition :=
  match r with
  | Ok {| content := [ Say (PStr text) ] |} =>
      if String.eqb text safe_notice then Some RESOLVED_SAFE
      else if String.eqb text alert_notice then Some ESCALATING
      else None
  | _ => None
  end.

(** A reply the carrier can speak: every [Say] carries a string. *)
Fixpoint speakable (t : twiml) : bool :=
  match t with
  | Say (PStr _) => true
  | Say _ => false
  | Gather _ _ _ _ _ nested => forallb speakable nested
  end.

Definition well_formed (r : Response) : bool :=
  forallb speakable (content r) && String.eqb (media_type r) "application/xml".

End Handlers.

(** ** Sample runs *)

Definition sample_url : string := "https://example.test".
Definition sample_from : option string := Some "+15550100".

Definition panic : TriggerEvent :=
  {| user_id := 7; user_name := "Asha"; phone := "+15550123";
     event_type := "panic_button"; event_payload := ∅ |}.

(** The completion is prose, not JSON; the carrier accepts the call. *)
Definition w_prose : world :=
  {| oracle := Completed (Raise JSONDecodeError);
     uuid4 := "0b0e6a3c-8f1d-4c55-9f0a-2d6c1d7e4a10";
     calls_create := Ok "CA01";
     messages_create := Ok tt |}.

(** The request to the decision endpoint times out. *)
Definition w_timeout : world :=
  {| oracle := PostRaises TimeoutException;
     uuid4 := "0b0e6a3c-8f1d-4c55-9f0a-2d6c1d7e4a10";
     calls_create := Ok "CA01";
     messages_create := Ok tt |}.

(** The session of [w_prose] once the call is placed and the carrier has
    fetched the prompt. *)
Definition prompted_run : list request :=
  [ TriggerReq panic w_prose; VoiceReq (<["CallSid" := "CA01"]> ∅) ].

Definition st_prompted : state := run_all sample_url sample_from prompted_run init.

(** The completion is JSON, but a list rather than a decision object. *)
Definition w_shapeless : world :=
  {| oracle := Completed (Ok (PList []));
     uuid4 := "0b0e6a3c-8f1d-4c55-9f0a-2d6c1d7e4a10";
     calls_create := Ok "CA01";
     messages_create := Ok tt |}.

(** Forms of response-collection callbacks. *)
Definition form_no_input : gmap string string :=
  <["CallSid" := "CA01"]> ∅.

Definition form_key2 : gmap string string :=
  <["CallSid" := "CA01"]> (<["Digits" := "2"]> ∅).

Definition form_key2_safe : gmap string string :=
  <["CallSid" := "CA01"]> (<["Digits" := "2"]> (<["SpeechResult" := "I am safe"]> ∅)).

Definition form_key1_help : gmap string string :=
  <["CallSid" := "CA01"]> (<["Digits" := "1"]> (<["SpeechResult" := "Help me"]> ∅)).

Definition form_say_safe : gmap string string :=
  <["CallSid" := "CA01"]> (<["SpeechResult" := "Yes, I am SAFE."]> ∅).

(** The completion is a decision object asking for a call, in capitals. *)
Definition call_fields : gmap string pyval :=
  <["action" := PStr "CALL"]>
  (<["message" := PStr "Are you safe?"]>
  (<["escalation" := PBool true]>
  (<["max_attempts" := PInt 3]> ∅))).

Definition w_call : world :=
  {| oracle := Completed (Ok (PDict call_fields));
     uuid4 := "5d2f7c1e-03aa-4b9e-8f47-6c0d9a1b2e33";
     calls_create := Ok "CA02";
     messages_create := Ok tt |}.

(** A run with two sessions, prompts and answers. *)
Definition busy_run : list request :=
  [ TriggerReq panic w_prose;
    VoiceReq (<["CallSid" := "CA01"]> ∅);
    GatherReq form_no_input (Some "CA01");
    TriggerReq panic w_call;
    VoiceReq (<["CallSid" := "CA02"]> ∅);
    GatherReq form_key2 (Some "CA02") ].

(** ** The invariant of the store *)

(** A record either carries ['attempts'] = 0, or was made by a
    response-collection callback alone and carries neither ['attempts'] nor
    a ['decision']. *)
Definition attempts_untouched (rec : gmap string pyval) : Prop :=
  rec !! "attempts" = Some (PInt 0) \/
  (rec !! "attempts" = None /\ rec !! "decision" = None).

Definition store_untouched (m : gmap (option string) (gmap string pyval)) : Prop :=
  forall k rec, m !! k = Some rec -> attempts_untouched rec.

(** ** More sample worlds *)

(** The completion asks for a notification. *)
Definition notify_fields : gmap string pyval :=
  <["action" := PStr "Notify"]> (<["message" := PStr "Please check in."]> ∅).

Definition w_notify : world :=
  {| oracle := Completed (Ok (PDict notify_fields));
     uuid4 := "9a4b1c77-2e5d-4f08-b6a1-7c3e0d5f8a92";
     calls_create := Ok "CA03";
     messages_create := Ok tt |}.

(** The completion is an empty object. *)
Definition w_empty : world :=
  {| oracle := Completed (Ok (PDict ∅));
     uuid4 := "9a4b1c77-2e5d-4f08-b6a1-7c3e0d5f8a92";
     calls_create := Ok "CA03";
     messages_create := Ok tt |}.

(** The completion is an object whose action is [null]. *)
Definition w_null_action : world :=
  {| oracle := Completed (Ok (PDict (<["action" := PNone]> ∅)));
     uuid4 := "9a4b1c77-2e5d-4f08-b6a1-7c3e0d5f8a92";
     calls_create := Ok "CA03";
     messages_create := Ok tt |}.

(** The completion is not JSON and the carrier refuses the call. *)
Definition w_refused : world :=
  {| oracle := Completed (Raise JSONDecodeError);
     uuid4 := "c1d2e3f4-0a1b-4c2d-8e3f-4a5b6c7d8e9f";
     calls_create := Raise TwilioRestException;
     messages_create := Ok tt |}.

(** The completion asks for a call and gives no message. *)
Definition w_silent : world :=
  {| oracle := Completed (Ok (PDict (<["action" := PStr "call"]> ∅)));
     uuid4 := "77aa10c2-5b6d-4e7f-9a0b-1c2d3e4f5a6b";
     calls_create := Ok "CA04";
     messages_create := Ok tt |}.

(** The completion asks for a call and gives a number as its message. *)
Definition w_numeric : world :=
  {| oracle := Completed (Ok (PDict (<["action" := PStr "call"]>
                                     (<["message" := PInt 5]> ∅))));
     uuid4 := "e0f1a2b3-4c5d-4e6f-8a7b-9c0d1e2f3a4b";
     calls_create := Ok "CA05";
     messages_create := Ok tt |}.

(** ** Counting and naming the trigger events of a run *)

Fixpoint trigger_count (rqs : list request) : nat :=
  match rqs with
  | [] => 0
  | TriggerReq _ _ :: rest => S (trigger_count rest)
  | _ :: rest => trigger_count rest
  end.

(** The temporary keys drawn by the trigger events of a run. *)
Fixpoint temporary_keys (rqs : list request) : list (option string) :=
  match rqs with
  | [] => []
  | TriggerReq _ w :: rest => Some (uuid4 w) :: temporary_keys rest
  | _ :: rest => temporary_keys rest
  end.

(** ** Further invariants of the store *)

(** A record that carries a ['twilio_sid'] is stored under that id. *)
Definition sid_matches_key (k : option string) (rec : gmap string pyval) : Prop :=
  forall v, rec !! "twilio_sid" = Some v -> exists s, k = Some s /\ v = PStr s.

Definition store_keyed (m : gmap (option string) (gmap string pyval)) : Prop :=
  forall k rec, m !! k = Some rec -> sid_matches_key k rec.

(** The record under the key [None] was made by response-collection
    callbacks alone: it carries no ['message']. *)
Definition none_key_plain (m : gmap (option string) (gmap string pyval)) : Prop :=
  forall rec, m !! None = Some rec -> rec !! "message" = None.

(** * Properties *)

(** ** Strings *)

Lemma lower_app (a b : string) : lower (a ++ b) = lower a ++ lower b.
Proof. induction a as [|c a IH]; simpl; [reflexivity | now rewrite IH]. Qed.

Lemma starts_with_app (sub r : string) : starts_with sub (sub ++ r) = true.
Proof.
  induction sub as [|c sub IH]; simpl; [reflexivity |].
  now rewrite Ascii.eqb_refl.
Qed.

Lemma contains_here (sub r : string) : contains sub (sub ++ r) = true.
Proof.
  pose proof (starts_with_app sub r) as H.
  destruct (sub ++ r); simpl; now rewrite H.
Qed.

Lemma contains_skip (sub pre s : string) :
  contains sub s = true -> contains sub (pre ++ s) = true.
Proof.
  intros H. induction pre as [|c pre IH]; simpl; [exact H |].
  rewrite IH. apply orb_true_r.
Qed.

(** A string with an occurrence of [safe], in any letter case, passes the
    test of the handler. *)
Lemma occurrence_found (pre w post : string) :
  lower w = "safe" -> contains "safe" (lower (pre ++ w ++ post)) = true.
Proof.
  intros Hw. rewrite !lower_app, Hw.
  apply contains_skip, contains_here.
Qed.

(** The truthiness guard of the condition is implied by the occurrence. *)
Lemma said_safe_spec (digits speech : option string) :
  said_safe digits speech =
  match digits with Some d => String.eqb d "1" | None => false end
  || match speech with Some sp => contains "safe" (lower sp) | None => false end.
Proof.
  unfold said_safe. f_equal.
  destruct speech as [[|c sp]|]; reflexivity.
Qed.

(** ** The response-collection handler, step by step *)

Lemma twilio_gather_run (form : gmap string string) (sid : option string) (st : state) :
  twilio_gather form sid st =
  (Ok (say_reply (if said_safe (form !! "Digits") (form !! "SpeechResult")
                  then safe_notice else alert_notice)),
   {| CALL_STATE := <[sid := <["response" := captured form]>
                               (default ∅ (CALL_STATE st !! sid))]> (CALL_STATE st);
      outbound := outbound st |}).
Proof.
  unfold twilio_gather, store_setdefault_field, bind, get_store, put_store, ret.
  simpl. destruct (said_safe _ _); reflexivity.
Qed.


(** ** The voice-prompt handler, step by step *)

Lemma str_vr_voice_reply (url : string) (call_sid : option string) (message : pyval) :
  str_vr (voice_reply url call_sid message) =
  if serializable (Say message) then Ok (voice_reply url call_sid message)
  else Raise TypeError.
Proof.
  unfold str_vr. cbn [content voice_reply forallb].
  change (serializable (Say (PStr no_input_notice))) with true.
  change (serializable (Gather "dtmf speech" 1 6
            (url ++ "/twilio/gather?call_sid=" ++ py_str call_sid) "POST" [Say message]))
    with (serializable (Say message) && true).
  now rewrite !andb_true_r.
Qed.

Lemma twilio_voice_run (url : string) (form : gmap string string) (st : state) :
  twilio_voice url form st =
  (str_vr (voice_reply url (form !! "CallSid")
             (default (PStr default_prompt)
                (default ∅ (CALL_STATE st !! (form !! "CallSid")) !! "message"))),
   st).
Proof. reflexivity. Qed.

Lemma twilio_voice_state (url : string) (form : gmap string string) (st : state) :
  snd (twilio_voice url form st) = st.
Proof. now rewrite twilio_voice_run. Qed.

(** ** The trigger handler, path by path *)

Lemma decision_action_dict (decision : pyval) (a : string) :
  decision_action decision = Ok a -> exists m, decision = PDict m.
Proof. destruct decision; try discriminate. eauto. Qed.

Lemma fallback_action : decision_action fallback_decision = Ok "call".
Proof. reflexivity. Qed.

(** The call path: the oracle step returned a dictionary whose action is
    [call] and the carrier accepted the call. *)
Lemma trigger_event_call (url : string) (from_ : option string)
    (event : TriggerEvent) (w : world) (st : state) (m : gmap string pyval) (sid : string) :
  llm_decide_action event (oracle w) = Ok (PDict m) ->
  decision_action (PDict m) = Ok "call" ->
  calls_create w = Ok sid ->
  trigger_event url from_ event w st =
  (Ok (calling_reply sid),
   {| CALL_STATE :=
        <[Some sid := <["twilio_sid" := PStr sid]>
                        (new_record event (PDict m) (default PNone (m !! "message")))]>
          (delete (Some (uuid4 w)) (CALL_STATE st));
      outbound := outbound st ++ [PlaceCall (phone event) from_ (url ++ "/twilio/voice")] |}).
Proof.
  intros Hd Ha Hc.
  unfold trigger_event, bind, lift. rewrite Hd, Ha. simpl.
  unfold store_set, send, store_pop, store_set_field, bind, get_store, put_store, ret, lift.
  simpl. rewrite Hc. simpl.
  rewrite lookup_insert_eq. simpl.
  rewrite lookup_insert_eq. simpl.
  rewrite delete_insert_eq, insert_insert_eq. reflexivity.
Qed.

(** Whatever happens, a trigger event leaves the store as it was, or with
    the new record under the temporary key (the carrier refused the call),
    or with the new record under the carrier's key only. *)
Lemma trigger_event_store (url : string) (from_ : option string)
    (event : TriggerEvent) (w : world) (st : state) :
  let store' := CALL_STATE (snd (trigger_event url from_ event w st)) in
  store' = CALL_STATE st \/
  (exists d msg, store' = <[Some (uuid4 w) := new_record event d msg]> (CALL_STATE st)) \/
  (exists d msg sid,
     store' = <[Some sid := <["twilio_sid" := PStr sid]> (new_record event d msg)]>
                (delete (Some (uuid4 w)) (CALL_STATE st))).
Proof.
  destruct (llm_decide_action event (oracle w)) as [decision|e] eqn:Hd;
    [|left; unfold trigger_event, bind, lift; now rewrite Hd].
  destruct (decision_action decision) as [a|e] eqn:Ha;
    [|left; unfold trigger_event, bind, lift; now rewrite Hd, Ha].
  destruct (decision_action_dict _ _ Ha) as [m ->].
  destruct (String.eqb a "call") eqn:Hcall.
  - apply String.eqb_eq in Hcall. subst a.
    destruct (calls_create w) as [sid|e] eqn:Hc.
    + right; right. exists (PDict m), (default PNone (m !! "message")), sid.
      now rewrite (trigger_event_call url from_ event w st m sid Hd Ha Hc).
    + right; left. exists (PDict m), (default PNone (m !! "message")).
      unfold trigger_event, bind, lift. rewrite Hd, Ha. simpl.
      unfold store_set, send, bind, get_store, put_store, ret, lift. simpl.
      now rewrite Hc.
  - left. unfold trigger_event, bind, lift. rewrite Hd, Ha. simpl. rewrite Hcall.
    destruct (String.eqb a "notify"); simpl; [|reflexivity].
    unfold send, bind, ret. simpl.
    now destruct (messages_create w).
Qed.

(** ** The response-collection callback *)

(** ['attempts'] is out of reach of the response-collection handler. *)
Lemma twilio_gather_attempts (form : gmap string string) (sid k : option string) (st : state) :
  attempts_of (snd (twilio_gather form sid st)) k = attempts_of st k.
Proof.
  rewrite twilio_gather_run. unfold attempts_of. simpl.
  destruct (decide (sid = k)) as [->|Hne].
  - rewrite lookup_insert_eq. simpl.
    rewrite lookup_insert_ne by discriminate.
    destruct (CALL_STATE st !! k); [reflexivity | apply lookup_empty].
  - now rewrite lookup_insert_ne.
Qed.

Lemma twilio_gather_outbound (form : gmap string string) (sid : option string) (st : state) :
  outbound (snd (twilio_gather form sid st)) = outbound st.
Proof. now rewrite twilio_gather_run. Qed.

(** C2, as stated, fails: a callback without input on the first of two
    attempts gets the escalation reply, not a retry. *)
Lemma no_input_first_attempt_not_retried :
  attempts_of st_prompted (Some "CA01") = Some (PInt 0) /\
  max_attempts_of st_prompted (Some "CA01") = Some (PInt 2) /\
  form_no_input !! "Digits" = None /\
  form_no_input !! "SpeechResult" = None /\
  reply_disposition (fst (twilio_gather form_no_input (Some "CA01") st_prompted))
    = Some ESCALATING /\
  reply_disposition (fst (twilio_gather form_no_input (Some "CA01") st_prompted))
    <> Some RETRYING.
Proof. vm_compute. repeat split; discriminate. Qed.

(** C2 (amended): a response-collection callback whose input is absent, or
    is neither keypress 1 nor speech containing [safe], gets the escalation
    reply whatever the stored attempts and maximum are; the handler places
    no call and leaves every stored ['attempts'] as it was. *)
Theorem unrecognised_input_escalates
    (form : gmap string string) (sid : option string) (st : state) :
  form !! "Digits" <> Some "1" ->
  (forall sp, form !! "SpeechResult" = Some sp -> contains "safe" (lower sp) = false) ->
  fst (twilio_gather form sid st) = Ok (say_reply alert_notice) /\
  reply_disposition (fst (twilio_gather form sid st)) = Some ESCALATING /\
  outbound (snd (twilio_gather form sid st)) = outbound st /\
  forall k, attempts_of (snd (twilio_gather form sid st)) k = attempts_of st k.
Proof.
  intros Hd Hs.
  assert (said_safe (form !! "Digits") (form !! "SpeechResult") = false) as Hno.
  { rewrite said_safe_spec. apply orb_false_intro.
    - destruct (form !! "Digits") as [d|]; [|reflexivity].
      apply String.eqb_neq. congruence.
    - destruct (form !! "SpeechResult") as [sp|]; [|reflexivity]. now apply Hs. }
  repeat split.
  - rewrite twilio_gather_run, Hno. reflexivity.
  - rewrite twilio_gather_run, Hno. reflexivity.
  - apply twilio_gather_outbound.
  - intros k. apply twilio_gather_attempts.
Qed.

Lemma unrecognised_input_escalates_witness :
  reply_disposition (fst (twilio_gather form_no_input (Some "CA01") st_prompted))
    = Some ESCALATING.
Proof.
  apply (unrecognised_input_escalates form_no_input (Some "CA01") st_prompted).
  - vm_compute. discriminate.
  - intros sp H. vm_compute in H. discriminate.
Defined.

(** C4: keypress 2 should take the escalation branch whatever the speech,
    as the prompt ("2 for Help") and the comment on the [else] branch say;
    the handler instead gives the safe reply to keypress 2 when the speech
    that comes with it contains [safe], and alerts no one. *)
Lemma key2_with_safe_speech_is_safe :
  form_key2_safe !! "Digits" = Some "2" /\
  form_key2_safe !! "SpeechResult" = Some "I am safe" /\
  fst (twilio_gather form_key2_safe (Some "CA01") st_prompted)
    = Ok (say_reply safe_notice) /\
  reply_disposition (fst (twilio_gather form_key2_safe (Some "CA01") st_prompted))
    = Some RESOLVED_SAFE /\
  reply_disposition (fst (twilio_gather form_key2_safe (Some "CA01") st_prompted))
    <> Some ESCALATING.
Proof. vm_compute. repeat split; discriminate. Qed.

(** C5, as stated, fails: keypress 1 gets the safe reply, but the session is
    not resolved by it. The handler stores the captured response and no
    more, and a keypress 2 that follows for the same session gets the
    escalation reply and changes the state. *)
Lemma safe_reply_does_not_settle_session :
  fst (twilio_gather form_key1_help (Some "CA01") st_prompted)
    = Ok (say_reply safe_notice) /\
  CALL_STATE (snd (twilio_gather form_key1_help (Some "CA01") st_prompted))
    !! Some "CA01"
    = (fun rec => <["response" := captured form_key1_help]> rec)
        <$> (CALL_STATE st_prompted !! Some "CA01") /\
  fst (twilio_gather form_key2 (Some "CA01")
         (snd (twilio_gather form_key1_help (Some "CA01") st_prompted)))
    = Ok (say_reply alert_notice) /\
  snd (twilio_gather form_key2 (Some "CA01")
         (snd (twilio_gather form_key1_help (Some "CA01") st_prompted)))
    <> snd (twilio_gather form_key1_help (Some "CA01") st_prompted).
Proof.
  split; [reflexivity |]. split; [vm_compute; reflexivity |].
  split; [reflexivity |].
  intros H.
  apply (f_equal (fun st => CALL_STATE st !! Some "CA01" ≫=
                            fun rec => rec !! "response" ≫=
                            fun r => match r with
                                     | PDict d => d !! "digits"
                                     | _ => None
                                     end)) in H.
  vm_compute in H. discriminate.
Qed.

(** C5 (amended): keypress 1, whatever the speech, and speech with an
    occurrence of [safe] in any letter case, whatever the keypress, get the
    safe reply; the handler stores the captured response under
    ['response'] of the session, keeps its other fields and the other
    sessions, sends nothing, and stores no state of the session: the reply
    to any later callback depends on the form of that callback alone. *)
Theorem safe_response_resolves
    (form : gmap string string) (sid : option string) (st : state) :
  form !! "Digits" = Some "1" \/
  (exists pre w post,
     form !! "SpeechResult" = Some (pre ++ w ++ post) /\ lower w = "safe") ->
  twilio_gather form sid st =
    (Ok (say_reply safe_notice),
     {| CALL_STATE := <[sid := <["response" := captured form]>
                                 (default ∅ (CALL_STATE st !! sid))]> (CALL_STATE st);
        outbound := outbound st |}) /\
  forall form' sid' st',
    fst (twilio_gather form' sid (snd (twilio_gather form sid st))) =
    fst (twilio_gather form' sid' st').
Proof.
  intros H.
  assert (said_safe (form !! "Digits") (form !! "SpeechResult") = true) as Hyes.
  { rewrite said_safe_spec. destruct H as [-> | (pre & w & post & -> & Hw)].
    - reflexivity.
    - rewrite (occurrence_found pre w post Hw). apply orb_true_r. }
  split.
  - now rewrite twilio_gather_run, Hyes.
  - intros form' sid' st'. now rewrite !twilio_gather_run.
Qed.

Lemma safe_response_resolves_witness :
  fst (twilio_gather form_key1_help (Some "CA01") st_prompted)
    = Ok (say_reply safe_notice) /\
  fst (twilio_gather form_say_safe (Some "CA01") st_prompted)
    = Ok (say_reply safe_notice).
Proof.
  split.
  - refine (f_equal fst (proj1 (safe_response_resolves form_key1_help (Some "CA01")
                                  st_prompted _))).
    left. reflexivity.
  - refine (f_equal fst (proj1 (safe_response_resolves form_say_safe (Some "CA01")
                                  st_prompted _))).
    right. exists "Yes, I am ", "SAFE", ".". split; reflexivity.
Defined.

(** C9: once a callback has resolved a session as safe, delivering a
    callback twice with one payload changes nothing the second time: the
    state after the second delivery is the state after the first, the reply
    is the same, and no request has gone to the carrier since before the
    session was resolved. When the payload is the one that resolved the
    session, the first delivery changes nothing either. *)
Theorem repeated_callback_idempotent
    (form0 form : gmap string string) (sid : option string) (st : state) :
  reply_disposition (fst (twilio_gather form0 sid st)) = Some RESOLVED_SAFE ->
  let s0 := snd (twilio_gather form0 sid st) in
  let s1 := snd (twilio_gather form sid s0) in
  let s2 := snd (twilio_gather form sid s1) in
  s2 = s1 /\
  fst (twilio_gather form sid s1) = fst (twilio_gather form sid s0) /\
  outbound s2 = outbound st /\
  (form = form0 -> s1 = s0).
Proof.
  intros _ s0 s1 s2. subst s0 s1 s2.
  rewrite !twilio_gather_run. cbn [fst snd CALL_STATE outbound].
  rewrite !lookup_insert_eq. unfold default at 1 2 3. cbn [from_option id].
  rewrite !insert_insert_eq.
  split; [reflexivity |]. split; [reflexivity |]. split; [reflexivity |].
  intros ->. reflexivity.
Qed.

Lemma repeated_callback_idempotent_witness :
  let s0 := snd (twilio_gather form_key1_help (Some "CA01") st_prompted) in
  let s1 := snd (twilio_gather form_key1_help (Some "CA01") s0) in
  snd (twilio_gather form_key1_help (Some "CA01") s1) = s1.
Proof.
  intros s0 s1.
  exact (proj1 (repeated_callback_idempotent form_key1_help form_key1_help
                  (Some "CA01") st_prompted eq_refl)).
Defined.

(** ** The voice-prompt callback *)

(** C10: the voice-prompt handler leaves the state as it found it, whether
    it returns or raises; it only reads the record of the given call id and
    takes the stored message, or the default prompt when the call or its
    message is absent. It returns the prompt with that message, unless the
    message cannot be serialised, and then it raises a type error. *)
Theorem voice_prompt_reads_only (url : string) (form : gmap string string) (st : state) :
  let message :=
    match CALL_STATE st !! (form !! "CallSid") with
    | Some meta => default (PStr default_prompt) (meta !! "message")
    | None => PStr default_prompt
    end in
  snd (twilio_voice url form st) = st /\
  fst (twilio_voice url form st) =
    if serializable (Say message)
    then Ok (voice_reply url (form !! "CallSid") message)
    else Raise TypeError.
Proof.
  intros message. subst message.
  rewrite twilio_voice_run, str_vr_voice_reply. cbn [fst snd].
  split; [reflexivity |].
  destruct (CALL_STATE st !! (form !! "CallSid")); reflexivity.
Qed.

(** ** Callbacks for unknown sessions *)

(** C8, as stated, fails: the response-collection callback for an unknown
    session adds a record to the store. *)
Lemma unknown_session_response_is_stored :
  CALL_STATE init !! Some "CA404" = None /\
  CALL_STATE (snd (twilio_gather form_no_input (Some "CA404") init)) !! Some "CA404"
    = Some (<["response" := captured form_no_input]> ∅) /\
  CALL_STATE (snd (twilio_gather form_no_input (Some "CA404") init)) <> CALL_STATE init.
Proof.
  split; [reflexivity |]. split; [reflexivity |].
  intros H. apply (f_equal (fun m => m !! Some "CA404")) in H.
  vm_compute in H. discriminate.
Qed.

(** C8 (amended): for callbacks that reference a session id absent from the
    store, no error is raised and the reply is well formed; the voice-prompt
    callback speaks the default prompt and changes nothing, while the
    response-collection callback stores the captured response in a new
    record under that id, leaves every other record alone and sends nothing
    to the carrier. *)
Theorem unknown_session_callbacks
    (url : string) (vform gform : gmap string string) (sid : option string) (st : state) :
  CALL_STATE st !! (vform !! "CallSid") = None ->
  CALL_STATE st !! sid = None ->
  twilio_voice url vform st
    = (Ok (voice_reply url (vform !! "CallSid") (PStr default_prompt)), st) /\
  well_formed (voice_reply url (vform !! "CallSid") (PStr default_prompt)) = true /\
  exists r,
    fst (twilio_gather gform sid st) = Ok r /\
    well_formed r = true /\
    outbound (snd (twilio_gather gform sid st)) = outbound st /\
    CALL_STATE (snd (twilio_gather gform sid st))
      = <[sid := <["response" := captured gform]> ∅]> (CALL_STATE st).
Proof.
  intros Hv Hg. split; [|split].
  - rewrite twilio_voice_run, Hv. reflexivity.
  - reflexivity.
  - rewrite twilio_gather_run. cbn [fst snd CALL_STATE outbound]. rewrite Hg.
    eexists. split; [reflexivity |].
    split; [now destruct (said_safe _ _) |].
    split; reflexivity.
Qed.

Lemma unknown_session_callbacks_witness :
  twilio_voice sample_url (<["CallSid" := "CA404"]> ∅) st_prompted
    = (Ok (voice_reply sample_url (Some "CA404") (PStr default_prompt)), st_prompted).
Proof.
  refine (proj1 (unknown_session_callbacks sample_url (<["CallSid" := "CA404"]> ∅)
                   form_key2 (Some "CA404") st_prompted _ _));
    vm_compute; reflexivity.
Defined.

(** ** Escalation *)

(** C3: a keypress 2 on a placed call gets the reply that the emergency
    contact and the authorities have been alerted, and nothing is sent: the
    only request the carrier has seen is the call to the subject. *)
Lemma negative_response_sends_nothing :
  fst (twilio_gather form_key2 (Some "CA01") st_prompted) = Ok (say_reply alert_notice) /\
  outbound (snd (twilio_gather form_key2 (Some "CA01") st_prompted))
    = [ PlaceCall "+15550123" sample_from "https://example.test/twilio/voice" ].
Proof. split; reflexivity. Qed.

(** ** The decision step and the trigger handler *)

(** C1, as stated, fails: a timeout of the request to the decision endpoint
    is raised by [llm_decide_action] and by the trigger handler, and a
    completion that is JSON but not a decision object is returned as the
    decision, on which the trigger handler raises. *)
Lemma oracle_failure_is_raised :
  llm_decide_action panic (oracle w_timeout) = Raise TimeoutException /\
  llm_decide_action panic (oracle w_timeout) <> Ok fallback_decision /\
  fst (trigger_event sample_url sample_from panic w_timeout init) = Raise TimeoutException /\
  llm_decide_action panic (oracle w_shapeless) = Ok (PList []) /\
  fst (trigger_event sample_url sample_from panic w_shapeless init) = Raise AttributeError.
Proof. repeat split; try reflexivity. discriminate. Qed.

(** C1 (amended): when the completion of the decision endpoint is not
    valid JSON, [llm_decide_action] returns the fixed fallback decision
    (action [call], the generic safety-check message, escalation true, two
    attempts at most), and the trigger handler, the carrier accepting the
    call, returns status [calling]. *)
Theorem fallback_on_unparsable_completion
    (url : string) (from_ : option string) (event : TriggerEvent) (w : world)
    (e : exn) (sid : string) (st : state) :
  oracle w = Completed (Raise e) ->
  calls_create w = Ok sid ->
  llm_decide_action event (oracle w) = Ok fallback_decision /\
  py_get fallback_decision "action" PNone = Ok (PStr "call") /\
  py_get fallback_decision "message" PNone = Ok (PStr fallback_message) /\
  py_get fallback_decision "escalation" PNone = Ok (PBool true) /\
  py_get fallback_decision "max_attempts" PNone = Ok (PInt 2) /\
  fst (trigger_event url from_ event w st) = Ok (calling_reply sid) /\
  py_get (calling_reply sid) "status" PNone = Ok (PStr "calling").
Proof.
  intros Ho Hc.
  assert (llm_decide_action event (oracle w) = Ok fallback_decision) as Hd
    by now rewrite Ho.
  repeat split; try reflexivity; try exact Hd.
  now rewrite (trigger_event_call url from_ event w st _ sid Hd fallback_action Hc).
Qed.

Lemma fallback_on_unparsable_completion_witness :
  llm_decide_action panic (oracle w_prose) = Ok fallback_decision /\
  fst (trigger_event sample_url sample_from panic w_prose init) = Ok (calling_reply "CA01").
Proof.
  pose proof (fallback_on_unparsable_completion sample_url sample_from panic w_prose
                JSONDecodeError "CA01" init eq_refl eq_refl) as H.
  destruct H as (H1 & _ & _ & _ & _ & H6 & _). split; [exact H1 | exact H6].
Defined.

(** C7: when the decision is to call and the carrier accepts the call,
    returning an id other than the temporary one, the trigger handler
    leaves the new record, with the carrier's id added to it, under the
    carrier's id and no record under the temporary id; the other keys of
    the store keep what they had. *)
Theorem session_rekeyed
    (url : string) (from_ : option string) (event : TriggerEvent) (w : world)
    (m : gmap string pyval) (sid : string) (st : state) :
  llm_decide_action event (oracle w) = Ok (PDict m) ->
  decision_action (PDict m) = Ok "call" ->
  calls_create w = Ok sid ->
  uuid4 w <> sid ->
  let st' := snd (trigger_event url from_ event w st) in
  fst (trigger_event url from_ event w st) = Ok (calling_reply sid) /\
  CALL_STATE st' !! Some sid =
    Some (<["twilio_sid" := PStr sid]>
            (new_record event (PDict m) (default PNone (m !! "message")))) /\
  CALL_STATE st' !! Some (uuid4 w) = None /\
  forall k, k <> Some sid -> k <> Some (uuid4 w) ->
            CALL_STATE st' !! k = CALL_STATE st !! k.
Proof.
  intros Hd Ha Hc Hne st'. subst st'.
  rewrite (trigger_event_call url from_ event w st m sid Hd Ha Hc).
  cbn [fst snd CALL_STATE].
  split; [reflexivity |]. split; [apply lookup_insert_eq |]. split.
  - rewrite lookup_insert_ne by congruence. apply lookup_delete_eq.
  - intros k Hk1 Hk2.
    rewrite lookup_insert_ne by congruence. now rewrite lookup_delete_ne.
Qed.

Lemma session_rekeyed_witness :
  let st' := snd (trigger_event sample_url sample_from panic w_call st_prompted) in
  fst (trigger_event sample_url sample_from panic w_call st_prompted)
    = Ok (calling_reply "CA02") /\
  CALL_STATE st' !! Some (uuid4 w_call) = None.
Proof.
  intros st'.
  pose proof (session_rekeyed sample_url sample_from panic w_call call_fields "CA02"
                st_prompted eq_refl eq_refl eq_refl) as H.
  assert (uuid4 w_call <> "CA02") as Hne by discriminate.
  destruct (H Hne) as (H1 & _ & H3 & _). split; [exact H1 | exact H3].
Defined.

(** ** The attempts counter *)

Lemma new_record_untouched (event : TriggerEvent) (d msg : pyval) :
  attempts_untouched (new_record event d msg).
Proof. left. reflexivity. Qed.

Lemma set_field_untouched (field : string) (v : pyval) (rec : gmap string pyval) :
  field <> "attempts" -> field <> "decision" ->
  attempts_untouched rec -> attempts_untouched (<[field := v]> rec).
Proof.
  intros Ha Hd H. unfold attempts_untouched.
  rewrite !lookup_insert_ne by assumption. exact H.
Qed.

Lemma empty_untouched : attempts_untouched ∅.
Proof. right. split; apply lookup_empty. Qed.

Lemma store_untouched_insert (k : option string) (rec : gmap string pyval)
    (m : gmap (option string) (gmap string pyval)) :
  attempts_untouched rec -> store_untouched m -> store_untouched (<[k := rec]> m).
Proof.
  intros Hrec Hm k' rec' H.
  destruct (decide (k = k')) as [->|Hne].
  - rewrite lookup_insert_eq in H. now inversion H; subst.
  - rewrite lookup_insert_ne in H by assumption. eauto.
Qed.

Lemma store_untouched_delete (k : option string)
    (m : gmap (option string) (gmap string pyval)) :
  store_untouched m -> store_untouched (delete k m).
Proof.
  intros Hm k' rec' H. apply lookup_delete_Some in H as [_ H]. eauto.
Qed.

Lemma handle_untouched (url : string) (from_ : option string) (st : state) (rq : request) :
  store_untouched (CALL_STATE st) -> store_untouched (CALL_STATE (handle url from_ st rq)).
Proof.
  intros Hst. destruct rq as [event w | form | form sid]; cbn [handle].
  - destruct (trigger_event_store url from_ event w st)
      as [-> | [(d & msg & ->) | (d & msg & sid & ->)]].
    + exact Hst.
    + apply store_untouched_insert; [apply new_record_untouched | exact Hst].
    + apply store_untouched_insert.
      * apply set_field_untouched; [discriminate | discriminate | apply new_record_untouched].
      * now apply store_untouched_delete.
  - exact Hst.
  - rewrite twilio_gather_run. cbn [snd CALL_STATE].
    apply store_untouched_insert; [| exact Hst].
    apply set_field_untouched; [discriminate | discriminate |].
    destruct (CALL_STATE st !! sid) as [rec|] eqn:Hrec; [eauto | apply empty_untouched].
Qed.

Lemma run_all_untouched (url : string) (from_ : option string)
    (rqs : list request) (st : state) :
  store_untouched (CALL_STATE st) ->
  store_untouched (CALL_STATE (run_all url from_ rqs st)).
Proof.
  revert st. induction rqs as [|rq rqs IH]; intros st Hst; [exact Hst |].
  apply IH, handle_untouched, Hst.
Qed.

(** C6, as stated, fails: delivering the voice prompt does not count an
    attempt; the stored counter is 0 before and after it, and after the
    response-collection callback that follows. *)
Lemma prompt_does_not_count_attempt :
  attempts_of (handle sample_url sample_from init (TriggerReq panic w_prose)) (Some "CA01")
    = Some (PInt 0) /\
  attempts_of st_prompted (Some "CA01") = Some (PInt 0) /\
  attempts_of st_prompted (Some "CA01") <> Some (PInt 1) /\
  attempts_of (run_all sample_url sample_from busy_run init) (Some "CA01") = Some (PInt 0).
Proof. vm_compute. repeat split; discriminate. Qed.

(** C6 (amended): the attempts counter of a session starts at 0 and no
    handler changes it: in every state the server can reach, a record that
    holds a decision holds ['attempts'] = 0, and no record holds any other
    value of ['attempts']. *)
Theorem attempts_stay_zero
    (url : string) (from_ : option string) (rqs : list request)
    (sid : option string) (rec : gmap string pyval) :
  CALL_STATE (run_all url from_ rqs init) !! sid = Some rec ->
  (is_Some (rec !! "decision") -> rec !! "attempts" = Some (PInt 0)) /\
  (forall v, rec !! "attempts" = Some v -> v = PInt 0).
Proof.
  intros Hrec.
  assert (store_untouched (CALL_STATE init)) as Hinit.
  { intros k r H. cbn in H. now rewrite lookup_empty in H. }
  destruct (run_all_untouched url from_ rqs init Hinit sid rec Hrec) as [H0 | [Hn Hd]].
  - split; [intros _; exact H0 | intros v Hv; congruence].
  - split; [intros [d Hsome]; congruence | intros v Hv; congruence].
Qed.

Lemma attempts_stay_zero_witness :
  exists rec,
    CALL_STATE (run_all sample_url sample_from busy_run init) !! Some "CA02" = Some rec /\
    is_Some (rec !! "decision") /\
    rec !! "attempts" = Some (PInt 0).
Proof.
  destruct (CALL_STATE (run_all sample_url sample_from busy_run init) !! Some "CA02")
    as [rec|] eqn:Hrec; [| vm_compute in Hrec; discriminate].
  exists rec. split; [reflexivity |].
  assert (is_Some (rec !! "decision")) as Hdec.
  { vm_compute in Hrec. injection Hrec as <-. vm_compute. eauto. }
  split; [exact Hdec |].
  exact (proj1 (attempts_stay_zero sample_url sample_from busy_run (Some "CA02") rec Hrec) Hdec).
Defined.

(** * Further properties of the handlers *)

(** ** The paths of the trigger handler *)

Lemma decision_action_present (m : gmap string pyval) (s : string) :
  m !! "action" = Some (PStr s) -> decision_action (PDict m) = Ok (lower s).
Proof. intros H. unfold decision_action, py_get. now rewrite H. Qed.

Lemma decision_action_absent (m : gmap string pyval) :
  m !! "action" = None -> decision_action (PDict m) = Ok "".
Proof. intros H. unfold decision_action, py_get. now rewrite H. Qed.

Lemma decision_action_raises (d : pyval) (e : exn) :
  decision_action d = Raise e -> e = AttributeError.
Proof.
  unfold decision_action, py_get. destruct d as [| | | | |m]; try (intros [= <-]; reflexivity).
  destruct (m !! "action") as [[]|]; cbn; intros [= <-] || discriminate; reflexivity.
Qed.

Lemma trigger_event_no_decision (url : string) (from_ : option string)
    (event : TriggerEvent) (w : world) (st : state) (e : exn) :
  llm_decide_action event (oracle w) = Raise e ->
  trigger_event url from_ event w st = (Raise e, st).
Proof. intros Hd. unfold trigger_event, bind, lift. now rewrite Hd. Qed.

Lemma trigger_event_no_action (url : string) (from_ : option string)
    (event : TriggerEvent) (w : world) (st : state) (d : pyval) (e : exn) :
  llm_decide_action event (oracle w) = Ok d ->
  decision_action d = Raise e ->
  trigger_event url from_ event w st = (Raise e, st).
Proof. intros Hd Ha. unfold trigger_event, bind, lift. now rewrite Hd, Ha. Qed.

Lemma trigger_event_refused (url : string) (from_ : option string)
    (event : TriggerEvent) (w : world) (st : state) (m : gmap string pyval) (e : exn) :
  llm_decide_action event (oracle w) = Ok (PDict m) ->
  decision_action (PDict m) = Ok "call" ->
  calls_create w = Raise e ->
  trigger_event url from_ event w st =
  (Raise e,
   {| CALL_STATE :=
        <[Some (uuid4 w) := new_record event (PDict m) (default PNone (m !! "message"))]>
          (CALL_STATE st);
      outbound := outbound st ++ [PlaceCall (phone event) from_ (url ++ "/twilio/voice")] |}).
Proof.
  intros Hd Ha Hc. unfold trigger_event, bind, lift. rewrite Hd, Ha. simpl.
  unfold store_set, send, bind, get_store, put_store, ret, lift. simpl.
  now rewrite Hc.
Qed.

Lemma trigger_event_notify (url : string) (from_ : option string)
    (event : TriggerEvent) (w : world) (st : state) (m : gmap string pyval) :
  llm_decide_action event (oracle w) = Ok (PDict m) ->
  decision_action (PDict m) = Ok "notify" ->
  trigger_event url from_ event w st =
  (match messages_create w with
   | Ok _ => Ok notified_reply
   | Raise e => Raise e
   end,
   {| CALL_STATE := CALL_STATE st;
      outbound := outbound st ++
                  [SendMessage (default PNone (m !! "message")) (phone event) from_] |}).
Proof.
  intros Hd Ha. unfold trigger_event, bind, lift. rewrite Hd, Ha. simpl.
  unfold send, ret. now destruct (messages_create w).
Qed.

Lemma trigger_event_ignore (url : string) (from_ : option string)
    (event : TriggerEvent) (w : world) (st : state) (m : gmap string pyval) (a : string) :
  llm_decide_action event (oracle w) = Ok (PDict m) ->
  decision_action (PDict m) = Ok a ->
  a <> "call" -> a <> "notify" ->
  trigger_event url from_ event w st = (Ok (ignored_reply (PDict m)), st).
Proof.
  intros Hd Ha Hc Hn. unfold trigger_event, bind, lift. rewrite Hd, Ha. simpl.
  apply String.eqb_neq in Hc, Hn. now rewrite Hc, Hn.
Qed.

(** X1: a decision whose action reads [notify] in any letter case sends one
    message to the subject's phone, with the decision's message as its body
    ([None] when the decision has none), and writes nothing to the store;
    the handler returns status [notified], or raises what the carrier
    raised. *)
Theorem notify_sends_one_message
    (url : string) (from_ : option string) (event : TriggerEvent) (w : world)
    (m : gmap string pyval) (s : string) (st : state) :
  llm_decide_action event (oracle w) = Ok (PDict m) ->
  m !! "action" = Some (PStr s) ->
  lower s = "notify" ->
  CALL_STATE (snd (trigger_event url from_ event w st)) = CALL_STATE st /\
  outbound (snd (trigger_event url from_ event w st)) =
    (outbound st ++ [SendMessage (default PNone (m !! "message")) (phone event) from_])%list /\
  fst (trigger_event url from_ event w st) =
    match messages_create w with
    | Ok _ => Ok notified_reply
    | Raise e => Raise e
    end.
Proof.
  intros Hd Hs Hl.
  pose proof (decision_action_present m s Hs) as Ha. rewrite Hl in Ha.
  rewrite (trigger_event_notify url from_ event w st m Hd Ha).
  repeat split.
Qed.

Lemma notify_sends_one_message_witness :
  outbound (snd (trigger_event sample_url sample_from panic w_notify st_prompted)) =
    (outbound st_prompted ++
       [SendMessage (PStr "Please check in.") "+15550123" sample_from])%list /\
  fst (trigger_event sample_url sample_from panic w_notify st_prompted) = Ok notified_reply.
Proof.
  destruct (notify_sends_one_message sample_url sample_from panic w_notify
              notify_fields "Notify" st_prompted eq_refl eq_refl eq_refl)
    as (_ & H2 & H3).
  split; [exact H2 | exact H3].
Defined.

(** X2: a decision object without an action, or with an action that reads
    neither [call] nor [notify], is ignored: the handler returns status
    [ignored] together with the decision, and the state is the one it
    found: nothing stored, nothing sent. *)
Theorem other_action_ignored
    (url : string) (from_ : option string) (event : TriggerEvent) (w : world)
    (m : gmap string pyval) (st : state) :
  llm_decide_action event (oracle w) = Ok (PDict m) ->
  (m !! "action" = None \/
   exists s, m !! "action" = Some (PStr s) /\ lower s <> "call" /\ lower s <> "notify") ->
  trigger_event url from_ event w st = (Ok (ignored_reply (PDict m)), st).
Proof.
  intros Hd [Hnone | (s & Hs & Hc & Hn)].
  - apply (trigger_event_ignore url from_ event w st m "" Hd
             (decision_action_absent m Hnone)); discriminate.
  - exact (trigger_event_ignore url from_ event w st m (lower s) Hd
             (decision_action_present m s Hs) Hc Hn).
Qed.

Lemma other_action_ignored_witness :
  trigger_event sample_url sample_from panic w_empty st_prompted
    = (Ok (ignored_reply (PDict ∅)), st_prompted).
Proof.
  apply (other_action_ignored sample_url sample_from panic w_empty ∅ st_prompted).
  - reflexivity.
  - left. reflexivity.
Defined.

(** X3: when the decision is to call and the carrier refuses the call, the
    handler raises the carrier's exception after the dial request, and the
    record it had stored stays in the store under the temporary id, with
    attempts 0 and no carrier id. *)
Theorem refused_call_leaves_temporary_record
    (url : string) (from_ : option string) (event : TriggerEvent) (w : world)
    (m : gmap string pyval) (s : string) (e : exn) (st : state) :
  llm_decide_action event (oracle w) = Ok (PDict m) ->
  m !! "action" = Some (PStr s) ->
  lower s = "call" ->
  calls_create w = Raise e ->
  let st' := snd (trigger_event url from_ event w st) in
  fst (trigger_event url from_ event w st) = Raise e /\
  outbound st' =
    (outbound st ++ [PlaceCall (phone event) from_ (url ++ "/twilio/voice")%string])%list /\
  CALL_STATE st' !! Some (uuid4 w)
    = Some (new_record event (PDict m) (default PNone (m !! "message"))) /\
  attempts_of st' (Some (uuid4 w)) = Some (PInt 0) /\
  (CALL_STATE st' !! Some (uuid4 w) ≫= fun rec => rec !! "twilio_sid") = None /\
  forall k, k <> Some (uuid4 w) -> CALL_STATE st' !! k = CALL_STATE st !! k.
Proof.
  intros Hd Hs Hl Hc st'. subst st'.
  pose proof (decision_action_present m s Hs) as Ha. rewrite Hl in Ha.
  rewrite (trigger_event_refused url from_ event w st m e Hd Ha Hc).
  unfold attempts_of. cbn [fst snd CALL_STATE outbound].
  rewrite lookup_insert_eq.
  split; [reflexivity |]. split; [reflexivity |]. split; [reflexivity |].
  split; [reflexivity |]. split; [reflexivity |].
  intros k Hk. now rewrite lookup_insert_ne by congruence.
Qed.

Lemma refused_call_leaves_temporary_record_witness :
  fst (trigger_event sample_url sample_from panic w_refused st_prompted)
    = Raise TwilioRestException /\
  attempts_of (snd (trigger_event sample_url sample_from panic w_refused st_prompted))
    (Some (uuid4 w_refused)) = Some (PInt 0).
Proof.
  assert (calls_create w_refused = Raise TwilioRestException) as Hc by reflexivity.
  destruct (refused_call_leaves_temporary_record sample_url sample_from panic w_refused
              _ "call" TwilioRestException st_prompted eq_refl eq_refl eq_refl Hc)
    as (H1 & _ & _ & H4 & _).
  split; [exact H1 | exact H4].
Defined.

(** X4: a decision that is not an object, or whose action is not a string,
    makes the handler raise an attribute error before it stores or sends
    anything. *)
Theorem malformed_decision_raises
    (url : string) (from_ : option string) (event : TriggerEvent) (w : world)
    (d : pyval) (st : state) :
  llm_decide_action event (oracle w) = Ok d ->
  ((forall m, d <> PDict m) \/
   (exists m v, d = PDict m /\ m !! "action" = Some v /\ forall s, v <> PStr s)) ->
  trigger_event url from_ event w st = (Raise AttributeError, st).
Proof.
  intros Hd Hbad.
  apply (trigger_event_no_action url from_ event w st d AttributeError Hd).
  destruct Hbad as [Hnd | (m & v & -> & Hv & Hns)].
  - destruct d; try reflexivity. now destruct (Hnd d).
  - unfold decision_action, py_get. rewrite Hv. cbn.
    destruct v; try reflexivity. now destruct (Hns s).
Qed.

Lemma malformed_decision_raises_witness :
  trigger_event sample_url sample_from panic w_null_action st_prompted
    = (Raise AttributeError, st_prompted).
Proof.
  apply (malformed_decision_raises sample_url sample_from panic w_null_action
           (PDict (<["action" := PNone]> ∅)) st_prompted).
  - reflexivity.
  - right. exists (<["action" := PNone]> ∅), PNone.
    split; [reflexivity |]. split; [reflexivity | discriminate].
Defined.

(** ** Every outcome of the trigger handler *)

Lemma llm_decide_action_raises (event : TriggerEvent) (o : oracle_run) (e : exn) :
  llm_decide_action event o = Raise e -> o = PostRaises e.
Proof. destruct o as [e'|[d|e']]; cbn; congruence. Qed.

Lemma trigger_event_cases (url : string) (from_ : option string)
    (event : TriggerEvent) (w : world) (st : state) :
  let T := trigger_event url from_ event w st in
  (exists e, oracle w = PostRaises e /\ T = (Raise e, st)) \/
  (exists d, llm_decide_action event (oracle w) = Ok d /\
             decision_action d = Raise AttributeError /\ T = (Raise AttributeError, st)) \/
  (exists m sid, llm_decide_action event (oracle w) = Ok (PDict m) /\
     decision_action (PDict m) = Ok "call" /\ calls_create w = Ok sid /\
     T = (Ok (calling_reply sid),
          {| CALL_STATE :=
               <[Some sid := <["twilio_sid" := PStr sid]>
                   (new_record event (PDict m) (default PNone (m !! "message")))]>
                 (delete (Some (uuid4 w)) (CALL_STATE st));
             outbound := outbound st ++
                         [PlaceCall (phone event) from_ (url ++ "/twilio/voice")] |})) \/
  (exists m e, llm_decide_action event (oracle w) = Ok (PDict m) /\
     decision_action (PDict m) = Ok "call" /\ calls_create w = Raise e /\
     T = (Raise e,
          {| CALL_STATE :=
               <[Some (uuid4 w) :=
                   new_record event (PDict m) (default PNone (m !! "message"))]>
                 (CALL_STATE st);
             outbound := outbound st ++
                         [PlaceCall (phone event) from_ (url ++ "/twilio/voice")] |})) \/
  (exists m, llm_decide_action event (oracle w) = Ok (PDict m) /\
     decision_action (PDict m) = Ok "notify" /\
     T = (match messages_create w with
          | Ok _ => Ok notified_reply
          | Raise e => Raise e
          end,
          {| CALL_STATE := CALL_STATE st;
             outbound := outbound st ++
                         [SendMessage (default PNone (m !! "message")) (phone event) from_] |})) \/
  (exists m a, llm_decide_action event (oracle w) = Ok (PDict m) /\
     decision_action (PDict m) = Ok a /\ a <> "call" /\ a <> "notify" /\
     T = (Ok (ignored_reply (PDict m)), st)).
Proof.
  intros T. subst T.
  destruct (llm_decide_action event (oracle w)) as [d|e] eqn:Hd.
  2:{ left. exists e. split; [now apply (llm_decide_action_raises event) |].
      now apply trigger_event_no_decision. }
  right.
  destruct (decision_action d) as [a|e] eqn:Ha.
  2:{ left. exists d. pose proof (decision_action_raises d e Ha) as ->.
      split; [reflexivity |]. split; [exact Ha |].
      now apply (trigger_event_no_action url from_ event w st d). }
  right.
  destruct (decision_action_dict d a Ha) as [m ->].
  destruct (String.eqb_spec a "call") as [-> | Hc].
  - destruct (calls_create w) as [sid|e] eqn:Hcc.
    + left. exists m, sid. repeat (split; [reflexivity || assumption |]).
      now apply trigger_event_call.
    + right; left. exists m, e. repeat (split; [reflexivity || assumption |]).
      now apply trigger_event_refused.
  - right; right.
    destruct (String.eqb_spec a "notify") as [-> | Hn].
    + left. exists m. repeat (split; [reflexivity || assumption |]).
      now apply trigger_event_notify.
    + right. exists m, a. repeat (split; [reflexivity || assumption |]).
      now apply (trigger_event_ignore url from_ event w st m a).
Qed.

(** X5: when the trigger handler returns, its reply is one of three and
    tells what was done: [calling] with the carrier's id exactly when the
    action read [call] and the carrier accepted the call, [notified] when it
    read [notify] and the message was accepted, [ignored] with the decision
    for every other action. *)
Theorem trigger_reply_tells_action
    (url : string) (from_ : option string) (event : TriggerEvent) (w : world)
    (st : state) (r : pyval) :
  fst (trigger_event url from_ event w st) = Ok r ->
  exists m a,
    llm_decide_action event (oracle w) = Ok (PDict m) /\
    decision_action (PDict m) = Ok a /\
    ((a = "call" /\ exists sid, calls_create w = Ok sid /\ r = calling_reply sid) \/
     (a = "notify" /\ messages_create w = Ok tt /\ r = notified_reply) \/
     (a <> "call" /\ a <> "notify" /\ r = ignored_reply (PDict m))).
Proof.
  intros Hr.
  destruct (trigger_event_cases url from_ event w st)
    as [(e & _ & HT) | [(d & _ & _ & HT) | [(m & sid & Hd & Ha & Hc & HT) |
       [(m & e & _ & _ & _ & HT) | [(m & Hd & Ha & HT) | (m & a & Hd & Ha & Hc & Hn & HT)]]]]];
    rewrite HT in Hr; cbn [fst] in Hr; try discriminate.
  - injection Hr as <-. exists m, "call". repeat (split; [assumption |]).
    left. split; [reflexivity |]. now exists sid.
  - exists m, "notify". repeat (split; [assumption |]).
    right; left. destruct (messages_create w) as [[]|e]; [|discriminate].
    injection Hr as <-. now repeat split.
  - injection Hr as <-. exists m, a. repeat (split; [assumption |]).
    right; right. now repeat split.
Qed.

Lemma trigger_reply_tells_action_witness :
  exists m a,
    llm_decide_action panic (oracle w_call) = Ok (PDict m) /\
    decision_action (PDict m) = Ok a /\
    ((a = "call" /\ exists sid, calls_create w_call = Ok sid /\
                                calling_reply "CA02" = calling_reply sid) \/
     (a = "notify" /\ messages_create w_call = Ok tt /\
      calling_reply "CA02" = notified_reply) \/
     (a <> "call" /\ a <> "notify" /\ calling_reply "CA02" = ignored_reply (PDict m))).
Proof.
  apply (trigger_reply_tells_action sample_url sample_from panic w_call st_prompted).
  reflexivity.
Defined.

(** X6: an exception raised by the trigger handler is the one raised by
    the request to the decision endpoint, an attribute error on the
    decision, or the one raised by the carrier on the dial or on the
    message; the handler's own reads and writes of the store never raise. *)
Theorem trigger_exception_provenance
    (url : string) (from_ : option string) (event : TriggerEvent) (w : world)
    (st : state) (e : exn) :
  fst (trigger_event url from_ event w st) = Raise e ->
  oracle w = PostRaises e \/
  (exists d, llm_decide_action event (oracle w) = Ok d /\
             decision_action d = Raise AttributeError /\ e = AttributeError) \/
  (exists m, llm_decide_action event (oracle w) = Ok (PDict m) /\
             decision_action (PDict m) = Ok "call" /\ calls_create w = Raise e) \/
  (exists m, llm_decide_action event (oracle w) = Ok (PDict m) /\
             decision_action (PDict m) = Ok "notify" /\ messages_create w = Raise e).
Proof.
  intros Hr.
  destruct (trigger_event_cases url from_ event w st)
    as [(e' & Ho & HT) | [(d & Hd & Ha & HT) | [(m & sid & _ & _ & _ & HT) |
       [(m & e' & Hd & Ha & Hc & HT) | [(m & Hd & Ha & HT) | (m & a & _ & _ & _ & _ & HT)]]]]];
    rewrite HT in Hr; cbn [fst] in Hr; try discriminate.
  - injection Hr as <-. now left.
  - injection Hr as <-. right; left. now exists d.
  - injection Hr as <-. right; right; left. now exists m.
  - right; right; right. exists m. repeat (split; [assumption |]).
    destruct (messages_create w); [discriminate | congruence].
Qed.

Lemma trigger_exception_provenance_witness :
  oracle w_refused = PostRaises TwilioRestException \/
  (exists d, llm_decide_action panic (oracle w_refused) = Ok d /\
             decision_action d = Raise AttributeError /\
             TwilioRestException = AttributeError) \/
  (exists m, llm_decide_action panic (oracle w_refused) = Ok (PDict m) /\
             decision_action (PDict m) = Ok "call" /\
             calls_create w_refused = Raise TwilioRestException) \/
  (exists m, llm_decide_action panic (oracle w_refused) = Ok (PDict m) /\
             decision_action (PDict m) = Ok "notify" /\
             messages_create w_refused = Raise TwilioRestException).
Proof.
  apply (trigger_exception_provenance sample_url sample_from panic w_refused st_prompted).
  reflexivity.
Defined.

(** ** Requests to the carrier over a run *)

Lemma trigger_event_outbound (url : string) (from_ : option string)
    (event : TriggerEvent) (w : world) (st : state) :
  exists l, outbound (snd (trigger_event url from_ event w st)) = (outbound st ++ l)%list /\
            (List.length l <= 1)%nat.
Proof.
  destruct (trigger_event_cases url from_ event w st)
    as [(e & _ & HT) | [(d & _ & _ & HT) | [(m & sid & _ & _ & _ & HT) |
       [(m & e & _ & _ & _ & HT) | [(m & _ & _ & HT) | (m & a & _ & _ & _ & _ & HT)]]]]];
    rewrite HT; cbn [snd outbound];
    try (exists []; rewrite app_nil_r; split; [reflexivity | cbn; lia]);
    eexists; (split; [reflexivity | cbn; lia]).
Qed.

(** X7: over any run of the server the requests already made to the
    carrier are kept in order, and at most one more is made per trigger
    event: the voice-prompt and response-collection callbacks make none. *)
Theorem carrier_requests_bounded
    (url : string) (from_ : option string) (rqs : list request) (st : state) :
  exists l, outbound (run_all url from_ rqs st) = (outbound st ++ l)%list /\
            (List.length l <= trigger_count rqs)%nat.
Proof.
  revert st. induction rqs as [|rq rqs IH]; intros st.
  - exists []. cbn. now rewrite app_nil_r.
  - cbn [run_all fold_left]. destruct (IH (handle url from_ st rq)) as (l2 & H2 & Hl2).
    unfold run_all in H2. rewrite H2.
    destruct rq as [event w | form | form sid]; cbn [handle trigger_count].
    + destruct (trigger_event_outbound url from_ event w st) as (l1 & -> & Hl1).
      exists (l1 ++ l2)%list. rewrite <- app_assoc. split; [reflexivity |].
      rewrite length_app. lia.
    + exists l2. split; [reflexivity | exact Hl2].
    + rewrite twilio_gather_outbound. exists l2. split; [reflexivity | exact Hl2].
Qed.

(** ** Keys and carrier ids *)

Lemma store_keyed_insert (k : option string) (rec : gmap string pyval)
    (m : gmap (option string) (gmap string pyval)) :
  sid_matches_key k rec -> store_keyed m -> store_keyed (<[k := rec]> m).
Proof.
  intros Hrec Hm k' rec' H.
  destruct (decide (k = k')) as [->|Hne].
  - rewrite lookup_insert_eq in H. now injection H as <-.
  - rewrite lookup_insert_ne in H by assumption. eauto.
Qed.

Lemma store_keyed_delete (k : option string)
    (m : gmap (option string) (gmap string pyval)) :
  store_keyed m -> store_keyed (delete k m).
Proof. intros Hm k' rec' H. apply lookup_delete_Some in H as [_ H]. eauto. Qed.

Lemma handle_keyed (url : string) (from_ : option string) (st : state) (rq : request) :
  store_keyed (CALL_STATE st) -> store_keyed (CALL_STATE (handle url from_ st rq)).
Proof.
  intros Hst. destruct rq as [event w | form | form sid]; cbn [handle].
  - destruct (trigger_event_store url from_ event w st)
      as [-> | [(d & msg & ->) | (d & msg & sid & ->)]].
    + exact Hst.
    + apply store_keyed_insert; [| exact Hst]. intros v Hv. discriminate.
    + apply store_keyed_insert; [| now apply store_keyed_delete].
      intros v Hv. rewrite lookup_insert_eq in Hv. injection Hv as <-. now exists sid.
  - exact Hst.
  - rewrite twilio_gather_run. cbn [snd CALL_STATE].
    apply store_keyed_insert; [| exact Hst].
    intros v Hv. rewrite lookup_insert_ne in Hv by discriminate.
    destruct (CALL_STATE st !! sid) as [rec|] eqn:Hrec; cbn in Hv.
    + exact (Hst sid rec Hrec v Hv).
    + now rewrite lookup_empty in Hv.
Qed.

(** X8: in every state the server can reach, a record that carries a
    ['twilio_sid'] is stored under that very id: the field and the key of a
    session never disagree. *)
Theorem twilio_sid_is_the_key
    (url : string) (from_ : option string) (rqs : list request)
    (k : option string) (rec : gmap string pyval) (v : pyval) :
  CALL_STATE (run_all url from_ rqs init) !! k = Some rec ->
  rec !! "twilio_sid" = Some v ->
  exists s, k = Some s /\ v = PStr s.
Proof.
  assert (forall st, store_keyed (CALL_STATE st) ->
                     store_keyed (CALL_STATE (run_all url from_ rqs st))) as Hrun.
  { induction rqs as [|rq rqs IH]; intros st Hst; [exact Hst |].
    apply IH, handle_keyed, Hst. }
  intros Hrec Hv. refine (Hrun init _ k rec Hrec v Hv).
  intros k' r H. cbn in H. now rewrite lookup_empty in H.
Qed.

Lemma twilio_sid_is_the_key_witness :
  exists s, Some "CA02" = Some s /\ PStr "CA02" = PStr s.
Proof.
  destruct (CALL_STATE (run_all sample_url sample_from busy_run init) !! Some "CA02")
    as [rec|] eqn:Hrec; [| vm_compute in Hrec; discriminate].
  apply (twilio_sid_is_the_key sample_url sample_from busy_run (Some "CA02") rec
           (PStr "CA02") Hrec).
  vm_compute in Hrec. injection Hrec as <-. vm_compute. reflexivity.
Defined.

(** ** Sessions are kept *)

Lemma handle_keeps (url : string) (from_ : option string) (st : state) (rq : request)
    (k : option string) :
  is_Some (CALL_STATE st !! k) ->
  k ∉ temporary_keys [rq] ->
  is_Some (CALL_STATE (handle url from_ st rq) !! k).
Proof.
  intros Hk Hnot. destruct rq as [event w | form | form sid]; cbn [handle].
  - assert (k <> Some (uuid4 w)) as Hne.
    { intros ->. apply Hnot. cbn. apply list_elem_of_here. }
    destruct (trigger_event_store url from_ event w st)
      as [-> | [(d & msg & ->) | (d & msg & sid & ->)]].
    + exact Hk.
    + rewrite lookup_insert_is_Some. destruct (decide (Some (uuid4 w) = k)); auto.
    + rewrite lookup_insert_is_Some. destruct (decide (Some sid = k)); [auto |].
      right. split; [assumption |]. now rewrite lookup_delete_ne by congruence.
  - exact Hk.
  - rewrite twilio_gather_run. cbn [snd CALL_STATE].
    rewrite lookup_insert_is_Some. destruct (decide (sid = k)); auto.
Qed.

(** X9: no handler removes a session: a key present in the store is still
    present after any run of the server, unless a trigger event of the run
    drew that very key as its temporary id. *)
Theorem sessions_are_never_removed
    (url : string) (from_ : option string) (rqs : list request) (st : state)
    (k : option string) :
  is_Some (CALL_STATE st !! k) ->
  k ∉ temporary_keys rqs ->
  is_Some (CALL_STATE (run_all url from_ rqs st) !! k).
Proof.
  revert st. induction rqs as [|rq rqs IH]; intros st Hk Hnot; [exact Hk |].
  cbn [run_all fold_left]. apply IH.
  - apply handle_keeps; [exact Hk |].
    intros Hin. apply Hnot.
    destruct rq as [event w | form | form sid]; cbn in Hin |- *;
      try (now apply elem_of_nil in Hin).
    apply list_elem_of_singleton in Hin as ->. apply list_elem_of_here.
  - intros Hin. apply Hnot.
    destruct rq as [event w | form | form sid]; cbn; [apply list_elem_of_further |..];
      exact Hin.
Qed.

Lemma sessions_are_never_removed_witness :
  is_Some (CALL_STATE (run_all sample_url sample_from busy_run st_prompted) !! Some "CA01").
Proof.
  apply (sessions_are_never_removed sample_url sample_from busy_run st_prompted (Some "CA01")).
  - vm_compute. eauto.
  - intros Hin. cbn in Hin.
    apply elem_of_cons in Hin as [Hin | Hin]; [discriminate |].
    apply elem_of_cons in Hin as [Hin | Hin]; [discriminate |].
    now apply elem_of_nil in Hin.
Defined.

(** ** The voice prompt of a session *)

Lemma handle_none_key (url : string) (from_ : option string) (st : state) (rq : request) :
  none_key_plain (CALL_STATE st) -> none_key_plain (CALL_STATE (handle url from_ st rq)).
Proof.
  intros Hst rec. destruct rq as [event w | form | form sid]; cbn [handle].
  - destruct (trigger_event_store url from_ event w st)
      as [-> | [(d & msg & ->) | (d & msg & sid & ->)]].
    + apply Hst.
    + rewrite lookup_insert_ne by discriminate. apply Hst.
    + rewrite lookup_insert_ne, lookup_delete_ne by discriminate. apply Hst.
  - apply Hst.
  - rewrite twilio_gather_run. cbn [snd CALL_STATE].
    destruct sid as [s|].
    + rewrite lookup_insert_ne by discriminate. apply Hst.
    + rewrite lookup_insert_eq. intros [= <-].
      rewrite lookup_insert_ne by discriminate.
      destruct (CALL_STATE st !! None) as [old|] eqn:Hold; cbn.
      * now apply Hst.
      * apply lookup_empty.
Qed.

(** X10: in every state the server can reach, a voice-prompt request whose
    form has no [CallSid] gets the default prompt, and the callback address
    it hands to the carrier ends in [call_sid=None]. *)
Theorem prompt_without_call_sid
    (url : string) (from_ : option string) (rqs : list request)
    (form : gmap string string) :
  form !! "CallSid" = None ->
  fst (twilio_voice url form (run_all url from_ rqs init)) =
    Ok {| content :=
            [ Gather "dtmf speech" 1 6 (url ++ "/twilio/gather?call_sid=None") "POST"
                [ Say (PStr default_prompt) ];
              Say (PStr no_input_notice) ];
          media_type := "application/xml" |}.
Proof.
  intros Hform.
  assert (forall st, none_key_plain (CALL_STATE st) ->
                     none_key_plain (CALL_STATE (run_all url from_ rqs st))) as Hrun.
  { induction rqs as [|rq rqs IH]; intros st Hst; [exact Hst |].
    apply IH, handle_none_key, Hst. }
  assert (none_key_plain (CALL_STATE (run_all url from_ rqs init))) as Hplain.
  { apply Hrun. intros rec H. cbn in H. now rewrite lookup_empty in H. }
  unfold twilio_voice, bind, get_store, ret. cbn [fst]. rewrite Hform.
  unfold voice_reply, py_str.
  destruct (CALL_STATE (run_all url from_ rqs init) !! None) as [rec|] eqn:Hrec; cbn.
  - now rewrite (Hplain rec Hrec).
  - now rewrite lookup_empty.
Qed.

Lemma prompt_without_call_sid_witness :
  fst (twilio_voice sample_url ∅
         (run_all sample_url sample_from
            (busy_run ++ [GatherReq form_key2 None]) init)) =
    Ok {| content :=
            [ Gather "dtmf speech" 1 6 "https://example.test/twilio/gather?call_sid=None"
                "POST" [ Say (PStr default_prompt) ];
              Say (PStr no_input_notice) ];
          media_type := "application/xml" |}.
Proof.
  apply (prompt_without_call_sid sample_url sample_from
           (busy_run ++ [GatherReq form_key2 None]) ∅).
  reflexivity.
Defined.

(** X11: once the trigger handler has placed a call, the voice prompt for
    the carrier's id takes the message stored with the session, which is the
    decision's message, or [None] when the decision has none (the default
    prompt is not used: the key is present). The prompt is returned when
    that message is a string or falsy, and the handler raises a type error
    when it is truthy and not a string. *)
Theorem prompt_speaks_stored_message
    (url : string) (from_ : option string) (event : TriggerEvent) (w : world)
    (m : gmap string pyval) (s sid : string) (form : gmap string string) (st : state) :
  llm_decide_action event (oracle w) = Ok (PDict m) ->
  m !! "action" = Some (PStr s) ->
  lower s = "call" ->
  calls_create w = Ok sid ->
  form !! "CallSid" = Some sid ->
  let message :=
    match m !! "message" with
    | Some msg => msg
    | None => PNone
    end in
  fst (twilio_voice url form (snd (trigger_event url from_ event w st))) =
    if serializable (Say message)
    then Ok (voice_reply url (Some sid) message)
    else Raise TypeError.
Proof.
  intros Hd Hs Hl Hc Hform message. subst message.
  pose proof (decision_action_present m s Hs) as Ha. rewrite Hl in Ha.
  rewrite (trigger_event_call url from_ event w st m sid Hd Ha Hc).
  rewrite twilio_voice_run, str_vr_voice_reply. cbn [fst snd CALL_STATE].
  rewrite Hform, lookup_insert_eq. cbn [default from_option id].
  rewrite lookup_insert_ne by discriminate.
  unfold new_record.
  rewrite lookup_insert_ne by discriminate.
  rewrite lookup_insert_ne by discriminate.
  rewrite lookup_insert_eq.
  now destruct (m !! "message").
Qed.

Lemma prompt_speaks_stored_message_witness :
  fst (twilio_voice sample_url (<["CallSid" := "CA04"]> ∅)
         (snd (trigger_event sample_url sample_from panic w_silent st_prompted))) =
    Ok (voice_reply sample_url (Some "CA04") PNone) /\
  fst (twilio_voice sample_url (<["CallSid" := "CA05"]> ∅)
         (snd (trigger_event sample_url sample_from panic w_numeric st_prompted))) =
    Raise TypeError.
Proof.
  split.
  - exact (prompt_speaks_stored_message sample_url sample_from panic w_silent
             (<["action" := PStr "call"]> ∅) "call" "CA04" (<["CallSid" := "CA04"]> ∅)
             st_prompted eq_refl eq_refl eq_refl eq_refl eq_refl).
  - exact (prompt_speaks_stored_message sample_url sample_from panic w_numeric
             (<["action" := PStr "call"]> (<["message" := PInt 5]> ∅)) "call" "CA05"
             (<["CallSid" := "CA05"]> ∅)
             st_prompted eq_refl eq_refl eq_refl eq_refl eq_refl).
Defined.

(** ** Responses stored by the response-collection callback *)

(** X12: the callback stores what it captured under ['response'] of the
    session named by [call_sid], keeps every other field of that session
    and every other session, and a later callback for the session replaces
    the response of an earlier one: the state after both is the state the
    later one alone would leave. *)
Theorem last_response_wins
    (form1 form2 : gmap string string) (sid : option string) (st : state) :
  let st1 := snd (twilio_gather form1 sid st) in
  (exists rec,
     CALL_STATE st1 !! sid = Some rec /\
     rec !! "response" = Some (captured form1) /\
     forall field, field <> "response" ->
       rec !! field = CALL_STATE st !! sid ≫= fun old => old !! field) /\
  (forall k, k <> sid -> CALL_STATE st1 !! k = CALL_STATE st !! k) /\
  snd (twilio_gather form2 sid st1) = snd (twilio_gather form2 sid st).
Proof.
  intros st1. subst st1. rewrite !twilio_gather_run. cbn [snd CALL_STATE outbound].
  split; [| split].
  - eexists. split; [apply lookup_insert_eq |]. split; [apply lookup_insert_eq |].
    intros field Hf. rewrite lookup_insert_ne by congruence.
    destruct (CALL_STATE st !! sid); [reflexivity | apply lookup_empty].
  - intros k Hk. now rewrite lookup_insert_ne by congruence.
  - rewrite lookup_insert_eq. cbn [default from_option id].
    now rewrite !insert_insert_eq.
Qed.

(** X13: response-collection callbacks for different sessions do not
    interfere: delivered in either order they leave the same state. *)
Theorem callbacks_of_distinct_sessions_commute
    (form1 form2 : gmap string string) (sid1 sid2 : option string) (st : state) :
  sid1 <> sid2 ->
  snd (twilio_gather form2 sid2 (snd (twilio_gather form1 sid1 st))) =
  snd (twilio_gather form1 sid1 (snd (twilio_gather form2 sid2 st))).
Proof.
  intros Hne. rewrite !twilio_gather_run. cbn [snd CALL_STATE outbound].
  rewrite !lookup_insert_ne by congruence.
  f_equal. now apply insert_insert_ne.
Qed.

Lemma callbacks_of_distinct_sessions_commute_witness :
  snd (twilio_gather form_key2 (Some "CA02")
         (snd (twilio_gather form_key1_help (Some "CA01") st_prompted))) =
  snd (twilio_gather form_key1_help (Some "CA01")
         (snd (twilio_gather form_key2 (Some "CA02") st_prompted))).
Proof.
  apply (callbacks_of_distinct_sessions_commute form_key1_help form_key2
           (Some "CA01") (Some "CA02") st_prompted).
  discriminate.
Defined.

(** ** When the safe reply is given *)

Lemma starts_with_split (sub s : string) :
  starts_with sub s = true -> exists post, s = sub ++ post.
Proof.
  revert s. induction sub as [|a sub IH]; intros s H; [now exists s |].
  destruct s as [|b s]; [discriminate |]. cbn in H.
  destruct (Ascii.eqb_spec a b) as [-> | _]; [| discriminate].
  destruct (IH s H) as [post ->]. now exists post.
Qed.

Lemma contains_split (sub s : string) :
  contains sub s = true -> exists pre post, s = pre ++ sub ++ post.
Proof.
  induction s as [|c s IH]; cbn; intros H.
  - rewrite orb_false_r in H. destruct (starts_with_split sub "" H) as [post Hp].
    now exists "", post.
  - apply orb_true_iff in H as [H | H].
    + destruct (starts_with_split sub (String c s) H) as [post Hp]. now exists "", post.
    + destruct (IH H) as (pre & post & ->). now exists (String c pre), post.
Qed.

Lemma lower_split (s a b : string) :
  lower s = a ++ b -> exists s1 s2, s = s1 ++ s2 /\ lower s1 = a /\ lower s2 = b.
Proof.
  revert s. induction a as [|c a IH]; intros s H.
  - now exists "", s.
  - destruct s as [|d s]; [discriminate |]. cbn in H. injection H as Hc H.
    destruct (IH s H) as (s1 & s2 & -> & H1 & H2).
    exists (String d s1), s2. cbn. now rewrite Hc, H1.
Qed.

(** X14: the safe reply is given only for keypress 1 or for speech with an
    occurrence of [safe] in some letter case. *)
Theorem safe_reply_only_if_safe
    (form : gmap string string) (sid : option string) (st : state) :
  fst (twilio_gather form sid st) = Ok (say_reply safe_notice) ->
  form !! "Digits" = Some "1" \/
  exists pre w post,
    form !! "SpeechResult" = Some (pre ++ w ++ post) /\ lower w = "safe".
Proof.
  rewrite twilio_gather_run. cbn [fst]. intros Hsafe.
  destruct (said_safe (form !! "Digits") (form !! "SpeechResult")) eqn:Hs;
    [| discriminate].
  rewrite said_safe_spec in Hs. apply orb_true_iff in Hs as [Hd | Hsp].
  - left. destruct (form !! "Digits") as [d|]; [| discriminate].
    apply String.eqb_eq in Hd. now subst d.
  - right. destruct (form !! "SpeechResult") as [sp|]; [| discriminate].
    destruct (contains_split "safe" (lower sp) Hsp) as (a & b & Hab).
    destruct (lower_split sp a ("safe" ++ b) Hab) as (pre & rest & -> & _ & Hrest).
    destruct (lower_split rest "safe" b Hrest) as (w & post & -> & Hw & _).
    now exists pre, w, post.
Qed.

Lemma safe_reply_only_if_safe_witness :
  form_say_safe !! "Digits" = Some "1" \/
  exists pre w post,
    form_say_safe !! "SpeechResult" = Some (pre ++ w ++ post) /\ lower w = "safe".
Proof.
  apply (safe_reply_only_if_safe form_say_safe (Some "CA01") st_prompted).
  reflexivity.
Defined.

(** ** A session from trigger to answer *)

(** X15: a trigger event that places a call, the voice prompt and a
    response-collection callback for the carrier's id leave one record for
    the session, under the carrier's id: subject, phone, message, decision,
    attempts 0, the carrier's id and the captured response; the only
    request made to the carrier is the dial. *)
Theorem answered_session_record
    (url : string) (from_ : option string) (event : TriggerEvent) (w : world)
    (m : gmap string pyval) (s sid : string) (vform gform : gmap string string)
    (st : state) :
  llm_decide_action event (oracle w) = Ok (PDict m) ->
  m !! "action" = Some (PStr s) ->
  lower s = "call" ->
  calls_create w = Ok sid ->
  let st' := run_all url from_
               [TriggerReq event w; VoiceReq vform; GatherReq gform (Some sid)] st in
  CALL_STATE st' !! Some sid =
    Some (<["response" := captured gform]>
         (<["twilio_sid" := PStr sid]>
         (<["user_id" := PInt (user_id event)]>
         (<["phone" := PStr (phone event)]>
         (<["message" := default PNone (m !! "message")]>
         (<["decision" := PDict m]>
         (<["attempts" := PInt 0]> ∅))))))) /\
  outbound st' =
    (outbound st ++ [PlaceCall (phone event) from_ (url ++ "/twilio/voice")%string])%list.
Proof.
  intros Hd Hs Hl Hc st'. subst st'.
  pose proof (decision_action_present m s Hs) as Ha. rewrite Hl in Ha.
  cbn [run_all fold_left handle].
  rewrite (trigger_event_call url from_ event w st m sid Hd Ha Hc). cbn [snd].
  rewrite twilio_voice_state.
  rewrite twilio_gather_run. cbn [snd CALL_STATE outbound].
  rewrite !lookup_insert_eq. split; reflexivity.
Qed.

Lemma answered_session_record_witness :
  outbound (run_all sample_url sample_from
              [TriggerReq panic w_call; VoiceReq (<["CallSid" := "CA02"]> ∅);
               GatherReq form_key2 (Some "CA02")] init) =
    [PlaceCall "+15550123" sample_from "https://example.test/twilio/voice"].
Proof.
  exact (proj2 (answered_session_record sample_url sample_from panic w_call call_fields
                  "CALL" "CA02" (<["CallSid" := "CA02"]> ∅) form_key2 init
                  eq_refl eq_refl eq_refl eq_refl)).
Defined.

(** ** Other sessions under a trigger event *)

(** X16: however a trigger event ends, it leaves alone every key of the
    store other than its temporary id and the id the carrier gave it. *)
Theorem trigger_touches_own_keys_only
    (url : string) (from_ : option string) (event : TriggerEvent) (w : world)
    (st : state) (k : option string) :
  k <> Some (uuid4 w) ->
  (forall sid, calls_create w = Ok sid -> k <> Some sid) ->
  CALL_STATE (snd (trigger_event url from_ event w st)) !! k = CALL_STATE st !! k.
Proof.
  intros Hu Hs.
  destruct (trigger_event_cases url from_ event w st)
    as [(e & _ & HT) | [(d & _ & _ & HT) | [(m & sid & _ & _ & Hc & HT) |
       [(m & e & _ & _ & _ & HT) | [(m & _ & _ & HT) | (m & a & _ & _ & _ & _ & HT)]]]]];
    rewrite HT; cbn [snd CALL_STATE]; try reflexivity.
  - specialize (Hs sid Hc).
    rewrite lookup_insert_ne by congruence. now rewrite lookup_delete_ne by congruence.
  - now rewrite lookup_insert_ne by congruence.
Qed.

Lemma trigger_touches_own_keys_only_witness :
  CALL_STATE (snd (trigger_event sample_url sample_from panic w_call st_prompted))
    !! Some "CA01" = CALL_STATE st_prompted !! Some "CA01".
Proof.
  apply (trigger_touches_own_keys_only sample_url sample_from panic w_call st_prompted
           (Some "CA01")).
  - discriminate.
  - intros sid Hsid. vm_compute in Hsid. injection Hsid as <-. discriminate.
Defined.
